(** * functions/tips/index.js: scoping, agent reuse and retry signalling

    A shallow embedding of the Cloud Functions samples of
    [functions/tips/index.js].  Handlers are written in a small monad that
    threads the module-level variables, records the observable calls
    (on [res], [console], [callback], [http]) in a trace, and propagates
    thrown errors. *)

From Stdlib Require Import ZArith List String Ascii Bool Lia DecimalString.
Import ListNotations.
Open Scope string_scope.
Open Scope Z_scope.

Set Implicit Arguments.

(** ** JavaScript values used by the samples *)

(** Numbers.  Every Number the samples compute is an integer far below
    2^53 in magnitude (sums and products of 1..9, differences of time
    values), or NaN when [Date.parse] rejects its argument; such doubles
    add, multiply, subtract and compare exactly. *)
Inductive num : Type :=
| NaN
| Fin (z : Z).

Inductive value : Type :=
| Undefined
| Number (n : num).

Definition Z_toString (z : Z) : string :=
  NilZero.string_of_int (Z.to_int z).

(** [Number::toString] on NaN and on integers. *)
Definition num_toString (n : num) : string :=
  match n with
  | NaN => "NaN"
  | Fin z => Z_toString z
  end.

(** What a template literal does with [${v}]. *)
Definition ToString (v : value) : string :=
  match v with
  | Undefined => "undefined"
  | Number n => num_toString n
  end.

Definition ToBoolean (v : value) : bool :=
  match v with
  | Undefined => false
  | Number NaN => false
  | Number (Fin z) => negb (z =? 0)
  end.

(** [a - b] on Numbers. *)
Definition num_sub (a b : num) : num :=
  match a, b with
  | Fin x, Fin y => Fin (x - y)
  | _, _ => NaN
  end.

(** [a > b] on Numbers: false as soon as one side is NaN. *)
Definition num_gt (a b : num) : bool :=
  match a, b with
  | Fin x, Fin y => y <? x
  | _, _ => false
  end.

Record Error : Type := { name : string; message : string }.

Definition new_Error (msg : string) : Error :=
  {| name := "Error"; message := msg |}.

Definition new_TypeError (msg : string) : Error :=
  {| name := "TypeError"; message := msg |}.

(** [Error.prototype.toString]. *)
Definition Error_toString (e : Error) : string :=
  if String.eqb (name e) "" then message e
  else if String.eqb (message e) "" then name e
  else name e ++ ": " ++ message e.

Inductive Promise : Type :=
| Resolved (v : value)
| Rejected (reason : Error).

Definition Promise_reject (e : Error) : Promise := Rejected e.

(** ** The http module *)

Record Agent : Type := { keepAlive : bool }.

(** The options object handed to [http.request]; [agent] is [None] when the
    property is absent. *)
Record RequestOptions : Type := {
  host : string;
  port : Z;
  path : string;
  method : string;
  agent : option Agent
}.

(** ** Observable calls *)

Inductive computation : Type := Light | Heavy.

Inductive effect : Type :=
| Call (c : computation)            (* lightComputation() / heavyComputation() entered *)
| NewAgent (a : Agent)              (* new http.Agent(...) *)
| HttpRequest (o : RequestOptions)  (* http.request(o, ...) *)
| ReqEnd                            (* req.end() *)
| SetEncoding (enc : string)        (* resInner.setEncoding(enc) *)
| ResEnd (body : string)            (* res.end(body) *)
| ResStatus (code : Z)              (* res.status(code) *)
| ResSend (body : string)           (* .send(body) *)
| ConsoleLog (msg : string)
| ConsoleError (msg : string)
| Callback (err : option Error).    (* callback() / callback(err) *)

Definition trace : Type := list effect.

(** ** The monad *)

Inductive completion (A : Type) : Type :=
| Normal (a : A)
| Throw (e : Error).
Arguments Throw {A} e.

Module M.

(** A computation over variables of type [S]. *)
Definition t (S A : Type) : Type := S -> completion A * S * trace.

Definition ret {S A} (a : A) : t S A :=
  fun s => (Normal a, s, []).

Definition bind {S A B} (m : t S A) (k : A -> t S B) : t S B :=
  fun s =>
    match m s with
    | (Normal a, s1, t1) =>
        match k a s1 with
        | (r, s2, t2) => (r, s2, (t1 ++ t2)%list)
        end
    | (Throw e, s1, t1) => (Throw e, s1, t1)
    end.

Definition throw {S A} (e : Error) : t S A :=
  fun s => (Throw e, s, []).

Definition emit {S} (e : effect) : t S unit :=
  fun s => (Normal tt, s, [e]).

Definition get {S} : t S S :=
  fun s => (Normal s, s, []).

Definition put {S} (s' : S) : t S unit :=
  fun _ => (Normal tt, s', []).

Definition result {S A} (r : completion A * S * trace) : completion A :=
  fst (fst r).
Definition final {S A} (r : completion A * S * trace) : S :=
  snd (fst r).
Definition effects {S A} (r : completion A * S * trace) : trace :=
  snd r.

End M.

Declare Scope js_scope.
Delimit Scope js_scope with js.
Notation "x <- m ;; k" := (M.bind m (fun x => k))
  (at level 61, m at next level, right associativity) : js_scope.
Notation "m ;; k" := (M.bind m (fun _ => k))
  (at level 61, right associativity) : js_scope.
Open Scope js_scope.

(** ** Module-level code *)

(** [Array.prototype.reduce] without an initial value: the first element
    seeds the accumulator, and an empty array is a TypeError. *)
Definition reduce {S} (f : Z -> Z -> Z) (numbers : list Z) : M.t S Z :=
  match numbers with
  | [] => M.throw (new_TypeError "Reduce of empty array with no initial value")
  | x :: xs => M.ret (fold_left f xs x)
  end.

Definition lightComputation {S} : M.t S Z :=
  M.emit (Call Light) ;;
  let numbers := [1; 2; 3; 4; 5; 6; 7; 8; 9] in
  reduce (fun t x => t + x) numbers.

Definition heavyComputation {S} : M.t S Z :=
  M.emit (Call Heavy) ;;
  let numbers := [1; 2; 3; 4; 5; 6; 7; 8; 9] in
  reduce (fun t x => t * x) numbers.

Definition functionSpecificComputation {S} : M.t S Z := heavyComputation.
Definition fileWideComputation {S} : M.t S Z := lightComputation.

(** The variables of the module.  [lazyGlobal] is the only [let]; the
    others are [const].  [the_agent] is the module's [agent], whose name
    the request option of [http.request] already has. *)
Record Globals : Type := {
  instanceVar : Z;
  nonLazyGlobal : Z;
  lazyGlobal : value;
  the_agent : Agent
}.

Definition set_lazyGlobal (v : value) : M.t Globals unit :=
  g <- M.get ;;
  M.put {| instanceVar := instanceVar g;
           nonLazyGlobal := nonLazyGlobal g;
           lazyGlobal := v;
           the_agent := the_agent g |}.

Definition new_Agent {S} (a : Agent) : M.t S Agent :=
  M.emit (NewAgent a) ;; M.ret a.

(** Evaluation of the module body at instance cold start, in source order:
    lines 35, 54, 55 and 75. *)
Definition cold_start : M.t unit Globals :=
  instanceVar <- heavyComputation ;;
  nonLazyGlobal <- fileWideComputation ;;
  let lazyGlobal := Undefined in
  agent <- new_Agent {| keepAlive := true |} ;;
  M.ret {| instanceVar := instanceVar;
           nonLazyGlobal := nonLazyGlobal;
           lazyGlobal := lazyGlobal;
           the_agent := agent |}.

(** ** The scoping handlers *)

Definition scopeDemo : M.t Globals unit :=
  functionVar <- lightComputation ;;
  g <- M.get ;;
  M.emit (ResEnd ("Per instance: " ++ Z_toString (instanceVar g)
                  ++ ", per function: " ++ Z_toString functionVar)).

(** [lazyGlobal = lazyGlobal || functionSpecificComputation()] *)
Definition lazyGlobals : M.t Globals unit :=
  g <- M.get ;;
  v <- (if ToBoolean (lazyGlobal g) then M.ret (lazyGlobal g)
        else (z <- functionSpecificComputation ;; M.ret (Number (Fin z)))) ;;
  set_lazyGlobal v ;;
  g <- M.get ;;
  M.emit (ResEnd ("Lazy global: " ++ ToString (lazyGlobal g)
                  ++ ", non-lazy global: " ++ Z_toString (nonLazyGlobal g))).

(** ** The agent handlers *)

(** What the callback of [http.request] leaves behind once it has run on a
    response [resInner]: its local variable [rawData] and the listeners it
    registered on [resInner], which read and assign that variable. *)
Record IncomingMessage : Type := {
  rawData : string;
  on_data : string -> M.t string unit;
  on_end : M.t string unit
}.

(** The request object: the callback given to [http.request] and the
    listener registered for its ['error'] event, if any. *)
Record ClientRequest : Type := {
  response_cb : M.t unit IncomingMessage;
  on_error : option (Error -> M.t unit unit)
}.

Definition http_request {S} (o : RequestOptions)
    (cb : M.t unit IncomingMessage) : M.t S ClientRequest :=
  M.emit (HttpRequest o) ;;
  M.ret {| response_cb := cb; on_error := None |}.

Definition req_on_error {S} (req : ClientRequest)
    (listener : Error -> M.t unit unit) : M.t S ClientRequest :=
  M.ret {| response_cb := response_cb req; on_error := Some listener |}.

Definition req_end {S} (req : ClientRequest) : M.t S ClientRequest :=
  M.emit ReqEnd ;; M.ret req.

Definition ephemeralAgent : M.t Globals ClientRequest :=
  req <- http_request
    {| host := "<HOST>"; port := 80; path := "<PATH>"; method := "GET";
       agent := None |}
    (let rawData := "" in
     M.emit (SetEncoding "utf8") ;;
     M.ret {| rawData := rawData;
              on_data := fun chunk =>
                rawData <- M.get ;; M.put (rawData ++ chunk);
              on_end :=
                rawData <- M.get ;;
                M.emit (ResStatus 200) ;;
                M.emit (ResSend ("Data: " ++ rawData)) |}) ;;
  req <- req_on_error req (fun e =>
    M.emit (ResStatus 500) ;;
    M.emit (ResSend ("Error: " ++ message e))) ;;
  req_end req.

Definition cachedAgent : M.t Globals ClientRequest :=
  g <- M.get ;;
  req <- http_request
    {| host := ""; port := 80; path := ""; method := "GET";
       agent := Some (the_agent g) |}
    (let rawData := "" in
     M.emit (SetEncoding "utf8") ;;
     M.ret {| rawData := rawData;
              on_data := fun chunk =>
                rawData <- M.get ;; M.put (rawData ++ chunk);
              on_end :=
                rawData <- M.get ;;
                M.emit (ResStatus 200) ;;
                M.emit (ResSend ("Data: " ++ rawData)) |}) ;;
  req <- req_on_error req (fun e =>
    M.emit (ResStatus 500) ;;
    M.emit (ResSend ("Error: " ++ message e))) ;;
  req_end req.

(** *** Node's side of a request

    What the transport does to a request after [req.end()]: the response
    arrives (the callback of [http.request] runs), body chunks and the end
    of the stream are emitted on the response, or the request emits
    ['error']. *)
Inductive transport_event : Type :=
| Response
| Data (chunk : string)
| End
| Failed (e : Error).

(** One event, against the response object if there is one yet.  An event
    nobody listens to is dropped. *)
Definition dispatch (req : ClientRequest) (ev : transport_event)
    : M.t (option IncomingMessage) unit :=
  fun s =>
    match ev, s with
    | Response, _ =>
        match response_cb req tt with
        | (Normal resInner, _, t) => (Normal tt, Some resInner, t)
        | (Throw e, _, t) => (Throw e, s, t)
        end
    | Data chunk, Some resInner =>
        match on_data resInner chunk (rawData resInner) with
        | (r, rawData', t) =>
            (r, Some {| rawData := rawData';
                        on_data := on_data resInner;
                        on_end := on_end resInner |}, t)
        end
    | End, Some resInner =>
        match on_end resInner (rawData resInner) with
        | (r, rawData', t) =>
            (r, Some {| rawData := rawData';
                        on_data := on_data resInner;
                        on_end := on_end resInner |}, t)
        end
    | Failed e, _ =>
        match on_error req with
        | Some listener =>
            match listener e tt with
            | (r, _, t) => (r, s, t)
            end
        | None => (Throw e, s, [])
        end
    | _, None => (Normal tt, s, [])
    end.

Fixpoint deliver (req : ClientRequest) (evs : list transport_event)
    : M.t (option IncomingMessage) unit :=
  match evs with
  | [] => M.ret tt
  | ev :: evs' => dispatch req ev ;; deliver req evs'
  end.

(** A whole invocation of an agent handler under a given transport: the
    handler runs to completion, then the events reach its listeners. *)
Definition with_transport (handler : M.t Globals ClientRequest)
    (evs : list transport_event) : M.t Globals unit :=
  fun g =>
    match handler g with
    | (Normal req, g', t) =>
        match deliver req evs None with
        | (r, _, t') => (r, g', (t ++ t')%list)
        end
    | (Throw e, g', t) => (Throw e, g', t)
    end.

(** A response body delivered in chunks and ended. *)
Definition body_stream (chunks : list string) : list transport_event :=
  (Response :: map Data chunks ++ [End])%list.

(** The calls made on [res]. *)
Definition is_res (e : effect) : bool :=
  match e with
  | ResEnd _ | ResStatus _ | ResSend _ => true
  | _ => false
  end.

Definition requests (t : trace) : list RequestOptions :=
  flat_map (fun e => match e with HttpRequest o => [o] | _ => [] end) t.

(** ** The retry handlers *)

Record Event : Type := { timestamp : string }.

(** [${event}] on a plain object. *)
Definition Event_toString (event : Event) : string := "[object Object]".

(** The clock and the date parser of the host. *)
Record Host : Type := {
  Date_now : Z;
  Date_parse : string -> num
}.

Definition avoidInfiniteRetries {S} (h : Host) (event : Event) : M.t S unit :=
  let eventAge := num_sub (Fin (Date_now h)) (Date_parse h (timestamp event)) in
  let eventMaxAge := Fin 10000 in
  if num_gt eventAge eventMaxAge then
    M.emit (ConsoleLog ("Dropping event " ++ Event_toString event
                        ++ " with age " ++ num_toString eventAge ++ " ms.")) ;;
    M.emit (Callback None)
  else
    M.emit (ConsoleLog ("Processing event " ++ Event_toString event
                        ++ " with age " ++ num_toString eventAge ++ " ms.")).

Definition retryPromise {S} (event : Event) : M.t S Promise :=
  let tryAgain := false in
  if tryAgain then
    M.throw (new_Error "Retrying...")
  else
    M.ret (Promise_reject (new_Error "Not retrying...")).

Definition retryCallback {S} (event : Event) : M.t S unit :=
  let tryAgain := false in
  let err := new_Error "Error!" in
  if tryAgain then
    M.emit (ConsoleError ("Retrying: " ++ Error_toString err)) ;;
    M.emit (Callback (Some err))
  else
    M.emit (ConsoleError ("Not retrying: " ++ Error_toString err)) ;;
    M.emit (Callback None).

(** *** How the invoking runtime reads a background function

    A thrown error or a rejected promise is a failure (the event is
    redelivered when retries are on); so is a callback called with an
    error.  A resolved promise, or a callback called without argument, is a
    success. *)
Inductive signal : Type := Success | Failure.

Definition promise_signal (r : completion Promise) : signal :=
  match r with
  | Throw _ => Failure
  | Normal (Rejected _) => Failure
  | Normal (Resolved _) => Success
  end.

(** The first call of [callback] decides; [None] when it is never called. *)
Fixpoint callback_signal (t : trace) : option signal :=
  match t with
  | [] => None
  | Callback None :: _ => Some Success
  | Callback (Some _) :: _ => Some Failure
  | _ :: t' => callback_signal t'
  end.

Definition is_callback (e : effect) : bool :=
  match e with
  | Callback _ => true
  | _ => false
  end.

(** The main work of [avoidInfiniteRetries] is its "Processing" line. *)
Definition is_processing (e : effect) : bool :=
  match e with
  | ConsoleLog msg => String.prefix "Processing event " msg
  | _ => false
  end.

(** ** An instance serving invocations *)

Inductive invocation : Type :=
| Call_scopeDemo
| Call_lazyGlobals
| Call_ephemeralAgent (evs : list transport_event)
| Call_cachedAgent (evs : list transport_event)
| Call_avoidInfiniteRetries (h : Host) (event : Event)
| Call_retryPromise (event : Event)
| Call_retryCallback (event : Event).

Definition invoke (i : invocation) : M.t Globals unit :=
  match i with
  | Call_scopeDemo => scopeDemo
  | Call_lazyGlobals => lazyGlobals
  | Call_ephemeralAgent evs => with_transport ephemeralAgent evs
  | Call_cachedAgent evs => with_transport cachedAgent evs
  | Call_avoidInfiniteRetries h event => avoidInfiniteRetries h event
  | Call_retryPromise event => retryPromise event ;; M.ret tt
  | Call_retryCallback event => retryCallback event
  end.

(** Invocations served one after the other on the same instance; a handler
    that throws does not take the instance down.  Returns the variables at
    the end and the trace of each invocation.  Handlers run to completion
    one at a time on Node's single thread; the listeners of an agent
    handler run later but touch no variable of the module, so such an
    invocation is taken together with its transport events. *)
Fixpoint serve (invs : list invocation) (g : Globals) : Globals * list trace :=
  match invs with
  | [] => (g, [])
  | i :: invs' =>
      let r := invoke i g in
      let (g', ts) := serve invs' (M.final r) in
      (g', M.effects r :: ts)
  end.

Definition calls (c : computation) (t : trace) : nat :=
  List.length (filter (fun e => match e, c with
                           | Call Heavy, Heavy | Call Light, Light => true
                           | _, _ => false
                           end) t).

(** ** Auxiliary definitions for the proofs *)

(** The variables as the module body leaves them ([cold_start_runs]). *)
Definition cold_globals : Globals :=
  {| instanceVar := 362880;
     nonLazyGlobal := 45;
     lazyGlobal := Undefined;
     the_agent := {| keepAlive := true |} |}.

(** What every invocation finds and leaves: the two [const] hold their
    cold-start values, and [lazyGlobal] is either still empty or holds the
    product. *)
Record warm (g : Globals) : Prop := {
  warm_instanceVar : instanceVar g = 362880;
  warm_nonLazyGlobal : nonLazyGlobal g = 45;
  warm_lazyGlobal :
    lazyGlobal g = Undefined \/ lazyGlobal g = Number (Fin 362880);
  warm_agent : the_agent g = {| keepAlive := true |}
}.

(** The listeners of the two agent handlers, named.  [ephemeralAgent_runs]
    and [cachedAgent_runs] show that each handler registers exactly
    these. *)
Definition data_listener (chunk : string) : M.t string unit :=
  rawData <- M.get ;; M.put (rawData ++ chunk).

Definition end_listener : M.t string unit :=
  rawData <- M.get ;;
  M.emit (ResStatus 200) ;;
  M.emit (ResSend ("Data: " ++ rawData)).

Definition error_listener (e : Error) : M.t unit unit :=
  M.emit (ResStatus 500) ;;
  M.emit (ResSend ("Error: " ++ message e)).

Definition resInner_holding (buffered : string) : IncomingMessage :=
  {| rawData := buffered; on_data := data_listener; on_end := end_listener |}.

Definition agent_request : ClientRequest :=
  {| response_cb := M.emit (SetEncoding "utf8") ;; M.ret (resInner_holding "");
     on_error := Some error_listener |}.

(** The buffer and the calls that a run of transport events produces,
    starting from buffer [o] ([None] before the response has arrived). *)
Fixpoint listen (evs : list transport_event) (o : option string)
    : option string * trace :=
  match evs with
  | [] => (o, [])
  | Response :: evs' =>
      let (o', t) := listen evs' (Some "") in (o', SetEncoding "utf8" :: t)
  | Data chunk :: evs' =>
      listen evs' (option_map (fun buffered => buffered ++ chunk) o)
  | End :: evs' =>
      let (o', t) := listen evs' o in
      match o with
      | Some buffered =>
          (o', ResStatus 200 :: ResSend ("Data: " ++ buffered) :: t)
      | None => (o', t)
      end
  | Failed e :: evs' =>
      let (o', t) := listen evs' o in
      (o', ResStatus 500 :: ResSend ("Error: " ++ message e) :: t)
  end.

(** Is this an invocation of [lazyGlobals]? *)
Definition is_lazyGlobals (i : invocation) : bool :=
  match i with
  | Call_lazyGlobals => true
  | _ => false
  end.

(** A host whose clock reads [now] and whose parser knows the epoch in ISO
    form and nothing else. *)
Definition epoch_host (now : Z) : Host :=
  {| Date_now := now;
     Date_parse := fun s =>
       if String.eqb s "1970-01-01T00:00:00.000Z" then Fin 0 else NaN |}.

Definition epoch_event : Event :=
  {| timestamp := "1970-01-01T00:00:00.000Z" |}.

(** Is this an invocation of [scopeDemo]? *)
Definition is_scopeDemo (i : invocation) : bool :=
  match i with
  | Call_scopeDemo => true
  | _ => false
  end.

(** How many times a trace constructs an [http.Agent]. *)
Definition agents_made (t : trace) : nat :=
  List.length (filter (fun e => match e with
                                | NewAgent _ => true
                                | _ => false
                                end) t).

(** An event whose timestamp [epoch_host] cannot parse. *)
Definition unparsed_event : Event :=
  {| timestamp := "not a date" |}.

(** A response that starts, delivers chunks, and breaks with an error on
    the request before the end of the stream. *)
Definition broken_stream (chunks : list string) (e : Error)
    : list transport_event :=
  (Response :: map Data chunks ++ [Failed e])%list.

(** * Properties *)

(** ** Cold start and the scoping handlers *)

Lemma cold_start_runs :
  cold_start tt
  = (Normal cold_globals, tt,
     [Call Heavy; Call Light; NewAgent {| keepAlive := true |}]).
Proof. reflexivity. Qed.

Lemma warm_cold_globals : warm cold_globals.
Proof. split; auto. Qed.

Lemma with_transport_final handler evs g :
  M.final (handler g) = g ->
  M.final (with_transport handler evs g) = g.
Proof.
  unfold with_transport, M.final.
  destruct (handler g) as [[[req | e] g'] t]; simpl; intros ->;
    [destruct (deliver req evs None) as [[r s] t'] |]; reflexivity.
Qed.

Lemma lazyGlobals_final g :
  M.final (lazyGlobals g)
  = {| instanceVar := instanceVar g;
       nonLazyGlobal := nonLazyGlobal g;
       lazyGlobal := if ToBoolean (lazyGlobal g) then lazyGlobal g
                     else Number (Fin 362880);
       the_agent := the_agent g |}.
Proof.
  unfold lazyGlobals, M.bind, M.get; simpl.
  destruct (ToBoolean (lazyGlobal g)); reflexivity.
Qed.

(** Only [lazyGlobals] assigns a variable of the module. *)
Lemma invoke_final i g :
  M.final (invoke i g) = g \/
  i = Call_lazyGlobals /\ M.final (invoke i g) = M.final (lazyGlobals g).
Proof.
  destruct i as [| | evs | evs | h event | event | event]; simpl;
    [left | right; split; reflexivity | left ..].
  - reflexivity.
  - apply with_transport_final; reflexivity.
  - apply with_transport_final; reflexivity.
  - unfold avoidInfiniteRetries.
    destruct (num_gt _ _); reflexivity.
  - reflexivity.
  - reflexivity.
Qed.

Lemma invoke_warm i g : warm g -> warm (M.final (invoke i g)).
Proof.
  intros W. destruct (invoke_final i g) as [-> | [_ ->]]; trivial.
  rewrite lazyGlobals_final. destruct W as [Hi Hn Hl Ha].
  split; simpl; trivial.
  destruct Hl as [-> | ->]; simpl; auto.
Qed.

Lemma serve_warm invs : forall g, warm g -> warm (fst (serve invs g)).
Proof.
  induction invs as [| i invs IH]; intros g W; simpl; trivial.
  specialize (IH _ (invoke_warm i W)).
  destruct (serve invs (M.final (invoke i g))); exact IH.
Qed.

Lemma scopeDemo_warm g :
  warm g ->
  scopeDemo g
  = (Normal tt, g,
     [Call Light; ResEnd "Per instance: 362880, per function: 45"]).
Proof.
  intros [Hi _ _ _]. unfold scopeDemo, M.bind, M.get; simpl.
  rewrite Hi. reflexivity.
Qed.

Lemma lazyGlobals_first g :
  warm g -> lazyGlobal g = Undefined ->
  lazyGlobals g
  = (Normal tt,
     {| instanceVar := instanceVar g;
        nonLazyGlobal := nonLazyGlobal g;
        lazyGlobal := Number (Fin 362880);
        the_agent := the_agent g |},
     [Call Heavy; ResEnd "Lazy global: 362880, non-lazy global: 45"]).
Proof.
  intros [_ Hn _ _] Hl. unfold lazyGlobals, M.bind, M.get; simpl.
  rewrite Hl; simpl. rewrite Hn. reflexivity.
Qed.

Lemma lazyGlobals_again g :
  warm g -> lazyGlobal g = Number (Fin 362880) ->
  lazyGlobals g
  = (Normal tt, g, [ResEnd "Lazy global: 362880, non-lazy global: 45"]).
Proof.
  intros [_ Hn _ _] Hl. unfold lazyGlobals, M.bind, M.get; simpl.
  rewrite Hl; simpl. rewrite Hn. destruct g; simpl in *; subst; reflexivity.
Qed.

Lemma lazyGlobals_res g :
  warm g ->
  M.result (lazyGlobals g) = Normal tt /\
  filter is_res (M.effects (lazyGlobals g))
  = [ResEnd "Lazy global: 362880, non-lazy global: 45"].
Proof.
  intros W. destruct (warm_lazyGlobal W) as [Hl | Hl].
  - rewrite (lazyGlobals_first W Hl). auto.
  - rewrite (lazyGlobals_again W Hl). auto.
Qed.

(** ** What the agent handlers register *)

Lemma ephemeralAgent_runs g :
  ephemeralAgent g
  = (Normal agent_request, g,
     [HttpRequest {| host := "<HOST>"; port := 80; path := "<PATH>";
                     method := "GET"; agent := None |};
      ReqEnd]).
Proof. reflexivity. Qed.

Lemma cachedAgent_runs g :
  cachedAgent g
  = (Normal agent_request, g,
     [HttpRequest {| host := ""; port := 80; path := "";
                     method := "GET"; agent := Some (the_agent g) |};
      ReqEnd]).
Proof. reflexivity. Qed.

Lemma deliver_listen evs : forall o,
  deliver agent_request evs (option_map resInner_holding o)
  = (Normal tt, option_map resInner_holding (fst (listen evs o)),
     snd (listen evs o)).
Proof.
  induction evs as [| ev evs IH]; intros o; [reflexivity |].
  destruct ev as [| chunk | | e]; simpl; unfold M.bind.
  - specialize (IH (Some "")). simpl in IH.
    destruct o; simpl; rewrite IH;
      destruct (listen evs (Some "")); reflexivity.
  - destruct o as [buffered |]; simpl.
    + specialize (IH (Some (buffered ++ chunk))). simpl in IH.
      unfold resInner_holding in IH. rewrite IH. reflexivity.
    + specialize (IH None). simpl in IH. rewrite IH. reflexivity.
  - destruct o as [buffered |]; simpl.
    + specialize (IH (Some buffered)). simpl in IH.
      unfold resInner_holding in IH. rewrite IH.
      destruct (listen evs (Some buffered)); reflexivity.
    + specialize (IH None). simpl in IH. rewrite IH.
      destruct (listen evs None); reflexivity.
  - specialize (IH o). destruct o; simpl in *; rewrite IH;
      destruct (listen evs _); reflexivity.
Qed.

Lemma with_transport_ephemeralAgent evs g :
  with_transport ephemeralAgent evs g
  = (Normal tt, g,
     HttpRequest {| host := "<HOST>"; port := 80; path := "<PATH>";
                    method := "GET"; agent := None |}
     :: ReqEnd :: snd (listen evs None)).
Proof.
  unfold with_transport. rewrite ephemeralAgent_runs.
  change (@None IncomingMessage) with (option_map resInner_holding None).
  rewrite deliver_listen. reflexivity.
Qed.

Lemma with_transport_cachedAgent evs g :
  with_transport cachedAgent evs g
  = (Normal tt, g,
     HttpRequest {| host := ""; port := 80; path := "";
                    method := "GET"; agent := Some (the_agent g) |}
     :: ReqEnd :: snd (listen evs None)).
Proof.
  unfold with_transport. rewrite cachedAgent_runs.
  change (@None IncomingMessage) with (option_map resInner_holding None).
  rewrite deliver_listen. reflexivity.
Qed.

Lemma string_app_assoc (a b c : string) : (a ++ b) ++ c = a ++ b ++ c.
Proof. induction a as [| x a IH]; simpl; [| rewrite IH]; reflexivity. Qed.

(** A body delivered in chunks is answered once, at the end, with the
    chunks joined in order of arrival. *)
Lemma listen_chunks chunks : forall buffered,
  listen (map Data chunks ++ [End]) (Some buffered)
  = (Some (buffered ++ String.concat "" chunks),
     [ResStatus 200;
      ResSend ("Data: " ++ buffered ++ String.concat "" chunks)]).
Proof.
  assert (nil_r : forall s : string, s ++ "" = s)
    by (induction s as [| x s IH]; simpl; [| rewrite IH]; reflexivity).
  assert (joined : forall c cs, String.concat "" (c :: cs)
                                = c ++ String.concat "" cs).
  { intros c [| c' cs]; simpl; [rewrite nil_r |]; reflexivity. }
  induction chunks as [| chunk chunks IH]; intros buffered.
  - simpl. rewrite nil_r. reflexivity.
  - rewrite joined. cbn [map app listen option_map].
    rewrite IH, string_app_assoc. reflexivity.
Qed.

Lemma listen_body_stream chunks :
  snd (listen (body_stream chunks) None)
  = [SetEncoding "utf8"; ResStatus 200;
     ResSend ("Data: " ++ String.concat "" chunks)].
Proof.
  unfold body_stream. cbn [app listen].
  rewrite (listen_chunks chunks ""). reflexivity.
Qed.

Lemma calls_app c (t1 t2 : trace) :
  calls c (t1 ++ t2)%list = (calls c t1 + calls c t2)%nat.
Proof. unfold calls. rewrite filter_app, length_app. reflexivity. Qed.

Lemma listen_calls c evs : forall o, calls c (snd (listen evs o)) = 0%nat.
Proof.
  induction evs as [| ev evs IH]; intros o; [reflexivity |].
  destruct ev as [| chunk | | e]; simpl.
  - specialize (IH (Some "")). destruct (listen evs (Some "")). exact IH.
  - apply IH.
  - specialize (IH o). destruct (listen evs o), o; exact IH.
  - specialize (IH o). destruct (listen evs o). exact IH.
Qed.

Lemma listen_requests evs : forall o, requests (snd (listen evs o)) = [].
Proof.
  induction evs as [| ev evs IH]; intros o; [reflexivity |].
  destruct ev as [| chunk | | e]; simpl.
  - specialize (IH (Some "")). destruct (listen evs (Some "")). exact IH.
  - apply IH.
  - specialize (IH o). destruct (listen evs o), o; exact IH.
  - specialize (IH o). destruct (listen evs o). exact IH.
Qed.

(** ** Who calls [heavyComputation] *)

Lemma invoke_heavy_calls i g :
  warm g ->
  calls Heavy (M.effects (invoke i g))
  = if is_lazyGlobals i && negb (ToBoolean (lazyGlobal g)) then 1%nat
    else 0%nat.
Proof.
  intros W.
  destruct i as [| | evs | evs | h event | event | event];
    cbn [invoke is_lazyGlobals andb].
  - rewrite (scopeDemo_warm W). reflexivity.
  - destruct (warm_lazyGlobal W) as [Hl | Hl].
    + rewrite (lazyGlobals_first W Hl), Hl. reflexivity.
    + rewrite (lazyGlobals_again W Hl), Hl. reflexivity.
  - rewrite with_transport_ephemeralAgent. apply (listen_calls Heavy evs None).
  - rewrite with_transport_cachedAgent. apply (listen_calls Heavy evs None).
  - unfold avoidInfiniteRetries. destruct (num_gt _ _); reflexivity.
  - reflexivity.
  - reflexivity.
Qed.

Lemma serve_heavy_calls invs : forall g,
  warm g ->
  calls Heavy (List.concat (snd (serve invs g)))
  = if existsb is_lazyGlobals invs && negb (ToBoolean (lazyGlobal g))
    then 1%nat else 0%nat.
Proof.
  induction invs as [| i invs IH]; intros g W; [reflexivity |].
  simpl. specialize (IH _ (invoke_warm i W)).
  destruct (serve invs (M.final (invoke i g))) as [g' ts] eqn:E.
  simpl in *. rewrite calls_app, IH, (invoke_heavy_calls i W).
  destruct (is_lazyGlobals i) eqn:Hi.
  - destruct i; try discriminate. simpl. rewrite lazyGlobals_final. simpl.
    destruct (warm_lazyGlobal W) as [-> | ->]; simpl;
      destruct (existsb is_lazyGlobals invs); reflexivity.
  - destruct (invoke_final i g) as [-> | [-> _]]; [| discriminate].
    reflexivity.
Qed.

Lemma serve_keeps_lazyGlobal invs : forall g,
  existsb is_lazyGlobals invs = false ->
  lazyGlobal (fst (serve invs g)) = lazyGlobal g.
Proof.
  induction invs as [| i invs IH]; intros g H; [reflexivity |].
  simpl in *. apply orb_false_elim in H as [Hi H].
  specialize (IH (M.final (invoke i g)) H).
  destruct (serve invs (M.final (invoke i g))) as [g' ts]. simpl in *.
  rewrite IH. destruct (invoke_final i g) as [-> | [-> _]];
    [reflexivity | discriminate].
Qed.

Lemma serve_stays_initialised invs : forall g,
  lazyGlobal g = Number (Fin 362880) ->
  lazyGlobal (fst (serve invs g)) = Number (Fin 362880).
Proof.
  induction invs as [| i invs IH]; intros g L; simpl; trivial.
  specialize (IH (M.final (invoke i g))).
  destruct (serve invs (M.final (invoke i g))) as [g' ts]; simpl in *.
  apply IH. destruct (invoke_final i g) as [-> | [_ ->]]; trivial.
  rewrite lazyGlobals_final, L. reflexivity.
Qed.

(** ** The claims about scoping *)

(** C7. [instanceVar] is computed once, by the single call of
    [heavyComputation] that the module body makes at cold start.  Whatever
    invocations the instance serves before and between two invocations of
    [scopeDemo], both read the cold-start value, and neither calls
    [heavyComputation] again: each only calls [lightComputation]. *)
Theorem instanceVar_computed_once (invs1 invs2 : list invocation) :
  cold_start tt
  = (Normal cold_globals, tt,
     [Call Heavy; Call Light; NewAgent {| keepAlive := true |}]) /\
  calls Heavy (M.effects (cold_start tt)) = 1%nat /\
  let g1 := fst (serve invs1 cold_globals) in
  let g2 := fst (serve (invs1 ++ Call_scopeDemo :: invs2) cold_globals) in
  let answer :=
    [Call Light;
     ResEnd ("Per instance: " ++ Z_toString (instanceVar cold_globals)
             ++ ", per function: 45")] in
  instanceVar g1 = instanceVar cold_globals /\
  instanceVar g2 = instanceVar cold_globals /\
  scopeDemo g1 = (Normal tt, g1, answer) /\
  scopeDemo g2 = (Normal tt, g2, answer) /\
  calls Heavy (M.effects (scopeDemo g1)) = 0%nat /\
  calls Heavy (M.effects (scopeDemo g2)) = 0%nat.
Proof.
  split; [reflexivity |]. split; [reflexivity |].
  pose proof (serve_warm invs1 warm_cold_globals) as W1.
  pose proof (serve_warm (invs1 ++ Call_scopeDemo :: invs2) warm_cold_globals)
    as W2.
  cbv zeta.
  rewrite (scopeDemo_warm W1), (scopeDemo_warm W2).
  rewrite (warm_instanceVar W1), (warm_instanceVar W2).
  repeat split.
Qed.

(** C8. [lazyGlobal] is undefined after cold start and stays so while the
    instance serves invocations other than [lazyGlobals] ([before]).  The
    first invocation of [lazyGlobals] calls the initializer and stores its
    result; after it, whatever the instance serves next ([after]), an
    invocation of [lazyGlobals] answers with the stored value and calls
    nothing.  Over any sequence of invocations the initializer is called at
    most once. *)
Theorem lazyGlobal_initialised_once (before after : list invocation) :
  existsb is_lazyGlobals before = false ->
  let g1 := fst (serve before cold_globals) in
  let g2 := M.final (lazyGlobals g1) in
  let g3 := fst (serve after g2) in
  M.result (cold_start tt) = Normal cold_globals /\
  lazyGlobal cold_globals = Undefined /\
  lazyGlobal g1 = Undefined /\
  calls Heavy (List.concat (snd (serve before cold_globals))) = 0%nat /\
  lazyGlobals g1
  = (Normal tt, g2,
     [Call Heavy; ResEnd "Lazy global: 362880, non-lazy global: 45"]) /\
  lazyGlobal g2 = Number (Fin 362880) /\
  calls Heavy (List.concat (snd (serve after g2))) = 0%nat /\
  lazyGlobal g3 = Number (Fin 362880) /\
  lazyGlobals g3
  = (Normal tt, g3, [ResEnd "Lazy global: 362880, non-lazy global: 45"]) /\
  calls Heavy
    (List.concat
       (snd (serve (before ++ Call_lazyGlobals :: after) cold_globals)))
  = 1%nat /\
  forall invs,
    (calls Heavy (List.concat (snd (serve invs cold_globals))) <= 1)%nat.
Proof.
  intros Hb. cbv zeta.
  pose proof (serve_warm before warm_cold_globals) as W1.
  pose proof (serve_keeps_lazyGlobal before cold_globals Hb) as L1.
  simpl (lazyGlobal cold_globals) in L1.
  pose proof (invoke_warm Call_lazyGlobals W1) as W2. cbn [invoke] in W2.
  assert (L2 : lazyGlobal (M.final (lazyGlobals (fst (serve before cold_globals))))
               = Number (Fin 362880))
    by (rewrite lazyGlobals_final, L1; reflexivity).
  pose proof (serve_warm after W2) as W3.
  assert (L3 : lazyGlobal
                 (fst (serve after
                         (M.final (lazyGlobals (fst (serve before cold_globals))))))
               = Number (Fin 362880)).
  { apply serve_stays_initialised; trivial. }
  repeat split; trivial.
  - rewrite (serve_heavy_calls before warm_cold_globals), Hb. reflexivity.
  - rewrite (lazyGlobals_first W1 L1). reflexivity.
  - rewrite (serve_heavy_calls after W2), L2.
    destruct (existsb is_lazyGlobals after); reflexivity.
  - apply (lazyGlobals_again W3 L3).
  - rewrite (serve_heavy_calls _ warm_cold_globals), existsb_app.
    simpl. rewrite orb_true_r. reflexivity.
  - intros invs. rewrite (serve_heavy_calls invs warm_cold_globals).
    destruct (_ && _); auto.
Qed.

Lemma lazyGlobal_initialised_once_witness :
  existsb is_lazyGlobals [Call_scopeDemo] = false /\
  lazyGlobals (fst (serve [Call_scopeDemo] cold_globals))
  = (Normal tt,
     M.final (lazyGlobals (fst (serve [Call_scopeDemo] cold_globals))),
     [Call Heavy; ResEnd "Lazy global: 362880, non-lazy global: 45"]).
Proof.
  split; [reflexivity |].
  apply (lazyGlobal_initialised_once [Call_scopeDemo]
           [Call_lazyGlobals; Call_scopeDemo]).
  reflexivity.
Defined.

(** C9. [heavyComputation] returns the product 362880 of 1..9 and
    [lightComputation] the sum 45.  On an instance that has served any
    invocations since cold start, [scopeDemo] answers
    "Per instance: 362880, per function: 45" and [lazyGlobals] answers
    "Lazy global: 362880, non-lazy global: 45", and each makes no other
    call on [res]. *)
Theorem scopeDemo_lazyGlobals_answers (invs : list invocation) :
  let g := fst (serve invs cold_globals) in
  M.result (cold_start tt) = Normal cold_globals /\
  (forall (S : Type) (s : S),
     heavyComputation s = (Normal 362880, s, [Call Heavy]) /\
     lightComputation s = (Normal 45, s, [Call Light])) /\
  M.result (scopeDemo g) = Normal tt /\
  filter is_res (M.effects (scopeDemo g))
  = [ResEnd "Per instance: 362880, per function: 45"] /\
  M.result (lazyGlobals g) = Normal tt /\
  filter is_res (M.effects (lazyGlobals g))
  = [ResEnd "Lazy global: 362880, non-lazy global: 45"].
Proof.
  cbv zeta. pose proof (serve_warm invs warm_cold_globals) as W.
  rewrite (scopeDemo_warm W).
  destruct (lazyGlobals_res W) as [R E]. rewrite R, E.
  repeat split.
Qed.

(** ** The claims about the agent handlers *)

(** C4. When the transport delivers the chunks "ab" and "cd" and then ends
    the stream, [ephemeralAgent] and [cachedAgent] each call
    [res.status(200).send("Data: abcd")] and nothing else on [res]; while
    the end of the stream has not come, neither has called [res]. *)
Theorem agents_answer_buffered_body (g : Globals) :
  let chunks := ["ab"; "cd"] in
  let ephemeral := with_transport ephemeralAgent (body_stream chunks) g in
  let cached := with_transport cachedAgent (body_stream chunks) g in
  let unended handler :=
    with_transport handler (Response :: map Data chunks) g in
  M.result ephemeral = Normal tt /\
  filter is_res (M.effects ephemeral)
  = [ResStatus 200; ResSend "Data: abcd"] /\
  M.result cached = Normal tt /\
  filter is_res (M.effects cached)
  = [ResStatus 200; ResSend "Data: abcd"] /\
  filter is_res (M.effects (unended ephemeralAgent)) = [] /\
  filter is_res (M.effects (unended cachedAgent)) = [].
Proof. repeat split. Qed.

(** C5. When the request fails with an error whose message is "boom",
    [ephemeralAgent] and [cachedAgent] each call
    [res.status(500).send("Error: boom")] and nothing else on [res], and
    the invocation has made one request in all. *)
Theorem agents_report_transport_error (g : Globals) (n : string) :
  let boom := {| name := n; message := "boom" |} in
  let ephemeral := with_transport ephemeralAgent [Failed boom] g in
  let cached := with_transport cachedAgent [Failed boom] g in
  M.result ephemeral = Normal tt /\
  filter is_res (M.effects ephemeral)
  = [ResStatus 500; ResSend "Error: boom"] /\
  List.length (requests (M.effects ephemeral)) = 1%nat /\
  M.result cached = Normal tt /\
  filter is_res (M.effects cached)
  = [ResStatus 500; ResSend "Error: boom"] /\
  List.length (requests (M.effects cached)) = 1%nat.
Proof. repeat split. Qed.

(** C6, as the claim states it, fails on its last clause: the requests of
    the two handlers differ in more than the agent.  [ephemeralAgent] asks
    host "<HOST>" for path "<PATH>", [cachedAgent] asks host "" for
    path "". *)
Lemma agent_requests_differ_beyond_agent :
  exists o_e o_c,
    requests (M.effects (ephemeralAgent cold_globals)) = [o_e] /\
    requests (M.effects (cachedAgent cold_globals)) = [o_c] /\
    host o_e <> host o_c /\
    path o_e <> path o_c.
Proof.
  eexists; eexists.
  split; [reflexivity |]. split; [reflexivity |].
  split; discriminate.
Qed.

(** C6, amended.  Under every run of transport events (chunks followed by
    the end of the stream, an error, or any other order of events) the two
    handlers complete alike and make the same calls, in the same order,
    after their request; so they send the same status and body.  Each makes
    one request, to the same port and with the same method;
    [cachedAgent] passes the agent of the instance, [ephemeralAgent]
    passes none. *)
Theorem agents_same_handling (g : Globals) (evs : list transport_event) :
  exists o_e o_c t,
    with_transport ephemeralAgent evs g
    = (Normal tt, g, HttpRequest o_e :: t) /\
    with_transport cachedAgent evs g
    = (Normal tt, g, HttpRequest o_c :: t) /\
    filter is_res (M.effects (with_transport ephemeralAgent evs g))
    = filter is_res (M.effects (with_transport cachedAgent evs g)) /\
    requests (M.effects (with_transport ephemeralAgent evs g)) = [o_e] /\
    requests (M.effects (with_transport cachedAgent evs g)) = [o_c] /\
    port o_e = port o_c /\
    method o_e = method o_c /\
    agent o_e = None /\
    agent o_c = Some (the_agent g).
Proof.
  do 3 eexists.
  rewrite with_transport_ephemeralAgent, with_transport_cachedAgent.
  split; [reflexivity |]. split; [reflexivity |].
  unfold M.effects; simpl. rewrite listen_requests.
  repeat split.
Qed.

(** ** The claims about retries *)

(** Up to the maximum age, and also when the age is NaN, the handler logs
    its "Processing" line and returns. *)
Lemma avoidInfiniteRetries_young S (h : Host) (event : Event) (s : S) :
  num_gt (num_sub (Fin (Date_now h)) (Date_parse h (timestamp event)))
         (Fin 10000) = false ->
  avoidInfiniteRetries h event s
  = (Normal tt, s,
     [ConsoleLog
        ("Processing event [object Object] with age "
         ++ num_toString
              (num_sub (Fin (Date_now h)) (Date_parse h (timestamp event)))
         ++ " ms.")]).
Proof. intros H. unfold avoidInfiniteRetries. rewrite H. reflexivity. Qed.

(** C2, on the code.  An event of age 5000 is processed, and the handler
    returns without having called [callback]: the runtime is never told
    that the invocation has completed. *)
Theorem avoidInfiniteRetries_young_no_callback :
  let r := avoidInfiniteRetries (epoch_host 5000) epoch_event tt in
  r = (Normal tt, tt,
       [ConsoleLog "Processing event [object Object] with age 5000 ms."]) /\
  filter is_callback (M.effects r) = [] /\
  callback_signal (M.effects r) = None.
Proof. repeat split. Qed.

(** C3. When the timestamp parses and the age, now minus the parsed time,
    exceeds 10000, the handler logs that it drops the event, calls
    [callback] without argument and returns; it does not log its
    "Processing" line.  The runtime reads a success. *)
Theorem avoidInfiniteRetries_drops_old
    (S : Type) (h : Host) (event : Event) (s : S) (parsed : Z) :
  Date_parse h (timestamp event) = Fin parsed ->
  Date_now h - parsed > 10000 ->
  let r := avoidInfiniteRetries h event s in
  r = (Normal tt, s,
       [ConsoleLog ("Dropping event [object Object] with age "
                    ++ Z_toString (Date_now h - parsed) ++ " ms.");
        Callback None]) /\
  filter is_processing (M.effects r) = [] /\
  filter is_callback (M.effects r) = [Callback None] /\
  callback_signal (M.effects r) = Some Success.
Proof.
  intros Hp Hage. cbv zeta. unfold avoidInfiniteRetries.
  rewrite Hp. simpl.
  replace (10000 <? Date_now h - parsed) with true
    by (symmetry; apply Z.ltb_lt; lia).
  repeat split.
Qed.

Lemma avoidInfiniteRetries_drops_old_witness :
  Date_parse (epoch_host 15000) (timestamp epoch_event) = Fin 0 /\
  15000 - 0 > 10000 /\
  avoidInfiniteRetries (epoch_host 15000) epoch_event tt
  = (Normal tt, tt,
     [ConsoleLog "Dropping event [object Object] with age 15000 ms.";
      Callback None]).
Proof.
  split; [reflexivity |]. split; [lia |].
  apply (@avoidInfiniteRetries_drops_old unit (epoch_host 15000) epoch_event
           tt 0); [reflexivity | simpl; lia].
Defined.

(** C10. For every event, whatever the clock and the parser answer (an
    age up to the maximum, beyond it, or NaN), the handler returns
    normally: it does not throw.  It calls [callback] at most once, and
    every call of [callback] in its trace is a call without argument; so
    the runtime never reads a failure from it. *)
Theorem avoidInfiniteRetries_never_signals_failure
    (S : Type) (h : Host) (event : Event) (s : S) :
  let r := avoidInfiniteRetries h event s in
  M.result r = Normal tt /\
  (filter is_callback (M.effects r) = [] \/
   filter is_callback (M.effects r) = [Callback None]) /\
  callback_signal (M.effects r) <> Some Failure /\
  forall err : option Error,
    In (Callback err) (M.effects r) ->
    err = None /\ callback_signal (M.effects r) = Some Success.
Proof.
  cbv zeta. unfold avoidInfiniteRetries.
  destruct (num_gt _ _); simpl.
  - split; [reflexivity |]. split; [right; reflexivity |].
    split; [discriminate |].
    intros err [H | [H | []]]; [discriminate |].
    injection H as <-. split; reflexivity.
  - split; [reflexivity |]. split; [left; reflexivity |].
    split; [discriminate |].
    intros err [H | []]. discriminate.
Qed.

Lemma avoidInfiniteRetries_never_signals_failure_witness :
  In (Callback None)
     (M.effects (avoidInfiniteRetries (epoch_host 15000) epoch_event tt)) /\
  (@None Error) = None /\
  M.result (avoidInfiniteRetries (epoch_host 15000) epoch_event tt)
  = Normal tt /\
  M.result (avoidInfiniteRetries (epoch_host 15000) unparsed_event tt)
  = Normal tt /\
  callback_signal
    (M.effects (avoidInfiniteRetries (epoch_host 15000) unparsed_event tt))
  <> Some Failure.
Proof.
  assert (H : In (Callback None)
                (M.effects
                   (avoidInfiniteRetries (epoch_host 15000) epoch_event tt)))
    by (simpl; right; left; reflexivity).
  split; [exact H |].
  destruct (@avoidInfiniteRetries_never_signals_failure
              unit (epoch_host 15000) epoch_event tt) as [R [_ [_ A]]].
  destruct (A None H) as [E _].
  destruct (@avoidInfiniteRetries_never_signals_failure
              unit (epoch_host 15000) unparsed_event tt) as [R' [_ [N' _]]].
  split; [exact E |]. split; [exact R |]. split; [exact R' | exact N'].
Defined.

(** C1, on the code.  With [tryAgain] false, [retryCallback] calls
    [callback] without argument, a success; [retryPromise] does not throw
    but returns [Promise.reject(new Error('Not retrying...'))], which the
    runtime reads as a failure.  The two surfaces disagree. *)
Theorem retryPromise_rejects_when_not_retrying
    (S : Type) (event : Event) (s : S) :
  retryPromise event s
  = (Normal (Rejected {| name := "Error"; message := "Not retrying..." |}),
     s, []) /\
  promise_signal (M.result (retryPromise event s)) = Failure /\
  retryCallback event s
  = (Normal tt, s,
     [ConsoleError "Not retrying: Error: Error!"; Callback None]) /\
  callback_signal (M.effects (retryCallback event s)) = Some Success.
Proof. repeat split. Qed.

(** * Further properties of the handlers *)

(** ** The age gate of [avoidInfiniteRetries] *)

(** X1. A timestamp that [Date.parse] rejects makes the age NaN, and NaN is not
    greater than the maximum age: whatever the clock reads, the event is
    processed, never dropped, and [callback] is not called. *)
Theorem avoidInfiniteRetries_unparsed_never_dropped
    (S : Type) (h : Host) (event : Event) (s : S) :
  Date_parse h (timestamp event) = NaN ->
  let r := avoidInfiniteRetries h event s in
  r = (Normal tt, s,
       [ConsoleLog "Processing event [object Object] with age NaN ms."]) /\
  filter is_callback (M.effects r) = [] /\
  callback_signal (M.effects r) = None.
Proof.
  intros Hp. cbv zeta. unfold avoidInfiniteRetries. rewrite Hp.
  repeat split.
Qed.

Lemma avoidInfiniteRetries_unparsed_never_dropped_witness :
  Date_parse (epoch_host 8640000000000000) (timestamp unparsed_event) = NaN /\
  avoidInfiniteRetries (epoch_host 8640000000000000) unparsed_event tt
  = (Normal tt, tt,
     [ConsoleLog "Processing event [object Object] with age NaN ms."]).
Proof.
  split; [reflexivity |].
  apply (@avoidInfiniteRetries_unparsed_never_dropped
           unit (epoch_host 8640000000000000) unparsed_event tt).
  reflexivity.
Defined.

(** X2. The comparison with the maximum age is strict, and nothing bounds the
    age from below: an event aged exactly 10000, or younger, or stamped in
    the future, is processed.  The handler logs the age and returns; it
    does not call [callback]. *)
Theorem avoidInfiniteRetries_processes_up_to_max_age
    (S : Type) (h : Host) (event : Event) (s : S) (parsed : Z) :
  Date_parse h (timestamp event) = Fin parsed ->
  Date_now h - parsed <= 10000 ->
  let r := avoidInfiniteRetries h event s in
  r = (Normal tt, s,
       [ConsoleLog ("Processing event [object Object] with age "
                    ++ Z_toString (Date_now h - parsed) ++ " ms.")]) /\
  filter is_callback (M.effects r) = [].
Proof.
  intros Hp Hage. cbv zeta. unfold avoidInfiniteRetries.
  rewrite Hp. simpl.
  replace (10000 <? Date_now h - parsed) with false
    by (symmetry; apply Z.ltb_ge; lia).
  repeat split.
Qed.

Lemma avoidInfiniteRetries_processes_up_to_max_age_witness :
  Date_parse (epoch_host 10000) (timestamp epoch_event) = Fin 0 /\
  10000 - 0 <= 10000 /\
  avoidInfiniteRetries (epoch_host 10000) epoch_event tt
  = (Normal tt, tt,
     [ConsoleLog "Processing event [object Object] with age 10000 ms."]).
Proof.
  split; [reflexivity |]. split; [lia |].
  apply (@avoidInfiniteRetries_processes_up_to_max_age
           unit (epoch_host 10000) epoch_event tt 0);
    [reflexivity | simpl; lia].
Defined.

(** X3. Once an event is dropped it stays dropped: if the handler calls
    [callback] for an event at some reading of the clock, then at every
    later reading, with the same parse of the timestamp, it again only logs
    the drop and calls [callback] without argument. *)
Theorem avoidInfiniteRetries_drop_is_stable
    (S : Type) (h h' : Host) (event : Event) (s : S) :
  Date_parse h' (timestamp event) = Date_parse h (timestamp event) ->
  Date_now h <= Date_now h' ->
  In (Callback None) (M.effects (avoidInfiniteRetries h event s)) ->
  filter is_callback (M.effects (avoidInfiniteRetries h' event s))
  = [Callback None] /\
  filter is_processing (M.effects (avoidInfiniteRetries h' event s)) = [].
Proof.
  intros Hp Hnow. unfold avoidInfiniteRetries. rewrite Hp.
  destruct (Date_parse h (timestamp event)) as [| parsed]; simpl.
  - intros [H | []]. discriminate.
  - destruct (10000 <? Date_now h - parsed) eqn:Hold; simpl.
    + intros _. apply Z.ltb_lt in Hold.
      replace (10000 <? Date_now h' - parsed) with true
        by (symmetry; apply Z.ltb_lt; lia).
      split; reflexivity.
    + intros [H | []]. discriminate.
Qed.

Lemma avoidInfiniteRetries_drop_is_stable_witness :
  Date_parse (epoch_host 20000) (timestamp epoch_event)
  = Date_parse (epoch_host 15000) (timestamp epoch_event) /\
  Date_now (epoch_host 15000) <= Date_now (epoch_host 20000) /\
  In (Callback None)
     (M.effects (avoidInfiniteRetries (epoch_host 15000) epoch_event tt)) /\
  filter is_callback
    (M.effects (avoidInfiniteRetries (epoch_host 20000) epoch_event tt))
  = [Callback None].
Proof.
  assert (H : In (Callback None)
                (M.effects
                   (avoidInfiniteRetries (epoch_host 15000) epoch_event tt)))
    by (simpl; right; left; reflexivity).
  split; [reflexivity |]. split; [simpl; lia |]. split; [exact H |].
  apply (@avoidInfiniteRetries_drop_is_stable
           unit (epoch_host 15000) (epoch_host 20000) epoch_event tt);
    [reflexivity | simpl; lia | exact H].
Defined.

(** ** The agent handlers under other transports *)

Lemma listen_broken chunks e : forall buffered,
  snd (listen (map Data chunks ++ [Failed e]) (Some buffered))
  = [ResStatus 500; ResSend ("Error: " ++ message e)].
Proof.
  induction chunks as [| chunk chunks IH]; intros buffered.
  - reflexivity.
  - cbn [map app listen option_map]. apply IH.
Qed.

(** X4. Whatever the chunks of the body are, and also when there is none, each
    agent handler answers once, at the end of the stream, with status 200
    and "Data: " followed by the chunks joined in order of arrival. *)
Theorem agents_answer_joined_chunks (g : Globals) (chunks : list string) :
  let answer :=
    [ResStatus 200; ResSend ("Data: " ++ String.concat "" chunks)] in
  filter is_res
    (M.effects (with_transport ephemeralAgent (body_stream chunks) g))
  = answer /\
  filter is_res
    (M.effects (with_transport cachedAgent (body_stream chunks) g))
  = answer.
Proof.
  cbv zeta.
  rewrite with_transport_ephemeralAgent, with_transport_cachedAgent.
  rewrite listen_body_stream. split; reflexivity.
Qed.

(** X5. When the request fails after the response has begun, each agent
    handler answers with status 500 and "Error: " followed by the message
    of the error, and sends none of the chunks it had buffered; the same
    holds when the request fails before any response. *)
Theorem agents_drop_buffer_on_error
    (g : Globals) (chunks : list string) (e : Error) :
  let answer := [ResStatus 500; ResSend ("Error: " ++ message e)] in
  filter is_res
    (M.effects (with_transport ephemeralAgent (broken_stream chunks e) g))
  = answer /\
  filter is_res
    (M.effects (with_transport cachedAgent (broken_stream chunks e) g))
  = answer /\
  filter is_res (M.effects (with_transport ephemeralAgent [Failed e] g))
  = answer /\
  filter is_res (M.effects (with_transport cachedAgent [Failed e] g))
  = answer.
Proof.
  cbv zeta.
  assert (L : snd (listen (broken_stream chunks e) None)
               = [SetEncoding "utf8"; ResStatus 500;
                  ResSend ("Error: " ++ message e)]).
  { unfold broken_stream. cbn [app listen].
    pose proof (listen_broken chunks e "") as L.
    destruct (listen (map Data chunks ++ [Failed e]) (Some "")) as [o t].
    simpl in L. subst t. reflexivity. }
  rewrite !with_transport_ephemeralAgent, !with_transport_cachedAgent.
  rewrite L. repeat split.
Qed.

(** ** Which invocations compute, and which make agents *)

Lemma lazyGlobals_effects g :
  M.effects (lazyGlobals g)
  = if ToBoolean (lazyGlobal g)
    then [ResEnd ("Lazy global: " ++ ToString (lazyGlobal g)
                  ++ ", non-lazy global: " ++ Z_toString (nonLazyGlobal g))]
    else [Call Heavy;
          ResEnd ("Lazy global: 362880, non-lazy global: "
                  ++ Z_toString (nonLazyGlobal g))].
Proof.
  unfold lazyGlobals, M.bind, M.get; simpl.
  destruct (ToBoolean (lazyGlobal g)); reflexivity.
Qed.

Lemma invoke_light_calls i g :
  calls Light (M.effects (invoke i g))
  = if is_scopeDemo i then 1%nat else 0%nat.
Proof.
  destruct i as [| | evs | evs | h event | event | event];
    cbn [invoke is_scopeDemo].
  - reflexivity.
  - rewrite lazyGlobals_effects.
    destruct (ToBoolean (lazyGlobal g)); reflexivity.
  - rewrite with_transport_ephemeralAgent. apply (listen_calls Light evs None).
  - rewrite with_transport_cachedAgent. apply (listen_calls Light evs None).
  - unfold avoidInfiniteRetries. destruct (num_gt _ _); reflexivity.
  - reflexivity.
  - reflexivity.
Qed.

(** X6. On any instance, the invocations served call [lightComputation] as
    many times as [scopeDemo] is invoked: [scopeDemo] computes its
    per-function value anew on every call, and no other handler calls
    [lightComputation]. *)
Theorem lightComputation_once_per_scopeDemo
    (invs : list invocation) (g : Globals) :
  calls Light (List.concat (snd (serve invs g)))
  = List.length (filter is_scopeDemo invs).
Proof.
  revert g. induction invs as [| i invs IH]; intros g; [reflexivity |].
  simpl. specialize (IH (M.final (invoke i g))).
  destruct (serve invs (M.final (invoke i g))) as [g' ts]. simpl in *.
  rewrite calls_app, IH, invoke_light_calls.
  destruct (is_scopeDemo i); reflexivity.
Qed.

(** X7. Whatever the variables of the module hold, one invocation of
    [lazyGlobals] leaves [lazyGlobal] truthy (a falsy value, undefined, 0
    or NaN, is replaced by the product) and the other variables as they
    were; a second invocation right after it changes no variable, calls no
    computation and sends the same body as the first. *)
Theorem lazyGlobals_twice (g : Globals) :
  let first := lazyGlobals g in
  let g' := M.final first in
  lazyGlobal g'
  = (if ToBoolean (lazyGlobal g) then lazyGlobal g
     else Number (Fin 362880)) /\
  ToBoolean (lazyGlobal g') = true /\
  instanceVar g' = instanceVar g /\
  nonLazyGlobal g' = nonLazyGlobal g /\
  the_agent g' = the_agent g /\
  lazyGlobals g' = (Normal tt, g', filter is_res (M.effects first)).
Proof.
  cbv zeta. rewrite lazyGlobals_final, lazyGlobals_effects.
  unfold lazyGlobals, M.bind, M.get; simpl.
  destruct (ToBoolean (lazyGlobal g)) eqn:T; simpl.
  - rewrite T. destruct g; repeat split.
  - repeat split.
Qed.

Lemma listen_agents_made evs : forall o,
  agents_made (snd (listen evs o)) = 0%nat.
Proof.
  induction evs as [| ev evs IH]; intros o; [reflexivity |].
  destruct ev as [| chunk | | e]; simpl.
  - specialize (IH (Some "")). destruct (listen evs (Some "")). exact IH.
  - apply IH.
  - specialize (IH o). destruct (listen evs o), o; exact IH.
  - specialize (IH o). destruct (listen evs o). exact IH.
Qed.

Lemma invoke_agents_made i g : agents_made (M.effects (invoke i g)) = 0%nat.
Proof.
  destruct i as [| | evs | evs | h event | event | event]; cbn [invoke].
  - reflexivity.
  - rewrite lazyGlobals_effects.
    destruct (ToBoolean (lazyGlobal g)); reflexivity.
  - rewrite with_transport_ephemeralAgent. apply (listen_agents_made evs None).
  - rewrite with_transport_cachedAgent. apply (listen_agents_made evs None).
  - unfold avoidInfiniteRetries. destruct (num_gt _ _); reflexivity.
  - reflexivity.
  - reflexivity.
Qed.

Lemma agents_made_app (t1 t2 : trace) :
  agents_made (t1 ++ t2)%list = (agents_made t1 + agents_made t2)%nat.
Proof. unfold agents_made. rewrite filter_app, length_app. reflexivity. Qed.

Lemma serve_agents_made invs : forall g,
  agents_made (List.concat (snd (serve invs g))) = 0%nat.
Proof.
  induction invs as [| i invs IH]; intros g; [reflexivity |].
  simpl. specialize (IH (M.final (invoke i g))).
  destruct (serve invs (M.final (invoke i g))) as [g' ts]. simpl in *.
  rewrite agents_made_app, IH, invoke_agents_made. reflexivity.
Qed.

(** X8. The one [http.Agent] of the module is made at cold start, with
    keepAlive set.  No invocation makes another, [ephemeralAgent]
    included, whose request names no agent; and after any invocations the
    request of [cachedAgent] still carries the cold-start agent. *)
Theorem agent_made_at_cold_start_only
    (invs : list invocation) (evs : list transport_event) :
  let g := fst (serve invs cold_globals) in
  agents_made (M.effects (cold_start tt)) = 1%nat /\
  agents_made (List.concat (snd (serve invs cold_globals))) = 0%nat /\
  the_agent g = {| keepAlive := true |} /\
  requests (M.effects (with_transport cachedAgent evs g))
  = [{| host := ""; port := 80; path := ""; method := "GET";
        agent := Some {| keepAlive := true |} |}] /\
  requests (M.effects (with_transport ephemeralAgent evs g))
  = [{| host := "<HOST>"; port := 80; path := "<PATH>"; method := "GET";
        agent := None |}].
Proof.
  cbv zeta.
  pose proof (serve_warm invs warm_cold_globals) as W.
  rewrite with_transport_ephemeralAgent, with_transport_cachedAgent.
  unfold M.effects; simpl. rewrite listen_requests, (warm_agent W).
  split; [reflexivity |]. split; [apply serve_agents_made |].
  repeat split.
Qed.

Lemma serve_from_warm invs : forall g,
  warm g ->
  fst (serve invs g)
  = if existsb is_lazyGlobals invs
    then {| instanceVar := instanceVar g;
            nonLazyGlobal := nonLazyGlobal g;
            lazyGlobal := Number (Fin 362880);
            the_agent := the_agent g |}
    else g.
Proof.
  induction invs as [| i invs IH]; intros g W; [reflexivity |].
  simpl. specialize (IH _ (invoke_warm i W)).
  destruct (serve invs (M.final (invoke i g))) as [g' ts]. simpl in *.
  rewrite IH. destruct (is_lazyGlobals i) eqn:Hi; simpl.
  - destruct i; try discriminate. simpl. rewrite lazyGlobals_final. simpl.
    destruct (warm_lazyGlobal W) as [-> | ->]; simpl;
      destruct (existsb is_lazyGlobals invs); reflexivity.
  - destruct (invoke_final i g) as [-> | [-> _]]; [| discriminate].
    reflexivity.
Qed.

(** X9. An instance has two states.  After any invocations its variables are
    those of cold start if [lazyGlobals] was never invoked, and those of
    cold start with [lazyGlobal] holding 362880 if it was; how many
    invocations there were, of which handlers and in which order, does not
    matter otherwise. *)
Theorem instance_has_two_states (invs : list invocation) :
  fst (serve invs cold_globals)
  = if existsb is_lazyGlobals invs
    then {| instanceVar := 362880;
            nonLazyGlobal := 45;
            lazyGlobal := Number (Fin 362880);
            the_agent := {| keepAlive := true |} |}
    else cold_globals.
Proof. apply (serve_from_warm invs warm_cold_globals). Qed.
